(** * Timer and session-log utilities: a shallow embedding

    Two programs are modelled:
    - [MTU/mock_test_timer_gui.py]: the per-question timers of the popup
      application ([MockTestTimerGUI]);
    - [study_timer.py]: the terminal study timer, its CSV log and the
      statistics recomputed from that log.

    Python integers are [Z].  Dictionaries are [gmap]s; an access to a missing
    key ([KeyError]) is the [None] result of the operation that performs it. *)

From Stdlib Require Import ZArith QArith Qround Qabs Lia List Bool Ascii String DecimalString.
From stdpp Require Import base option list gmap strings.

Local Open Scope Z_scope.

(** ** The popup application: per-question timers *)

Module MockTestTimerGUI.

(** One entry of [self.question_data]; the widget handles, the category
    check boxes and the notes are not read by the timer code and are left
    out. *)
Record QData := mkQData {
  timer_running : bool;
  elapsed_seconds : Z;
  beep_played : bool
}.

(** The part of the application object the timers read and write.
    [after_queue] holds the pending [root.after(1000, run_question_timer, q)]
    callbacks in the order they were scheduled (they all have the same delay,
    so this is the order in which the event loop runs them); [beeps] logs the
    question number of every [winsound.Beep] call. *)
Record GUI := mkGUI {
  question_data : gmap Z QData;
  max_time_per_question : Z;
  after_queue : list Z;
  beeps : list Z
}.

Definition set_question (q : Z) (d : QData) (g : GUI) : GUI :=
  mkGUI (<[q := d]> (question_data g)) (max_time_per_question g)
        (after_queue g) (beeps g).

Definition schedule (q : Z) (g : GUI) : GUI :=
  mkGUI (question_data g) (max_time_per_question g)
        (after_queue g ++ [q]) (beeps g).

Definition beep (q : Z) (g : GUI) : GUI :=
  mkGUI (question_data g) (max_time_per_question g)
        (after_queue g) (beeps g ++ [q]).

(** [elapsed_minutes > max_minutes] with [elapsed_minutes = elapsed / 60]:
    the quotient is compared as an exact number (the float division is
    exact enough for every count below 2^48 seconds). *)
Definition time_exceeded (elapsed max_minutes : Z) : bool :=
  60 * max_minutes <? elapsed.

(** [run_question_timer]: one run of the timer callback. *)
Definition run_question_timer (q : Z) (g : GUI) : option GUI :=
  d ← question_data g !! q;
  if timer_running d then
    let d1 := mkQData true (elapsed_seconds d + 1) (beep_played d) in
    let g1 := set_question q d1 g in
    let g2 :=
      if time_exceeded (elapsed_seconds d1) (max_time_per_question g1)
         && negb (beep_played d1)
      then beep q (set_question q (mkQData true (elapsed_seconds d1) true) g1)
      else g1 in
    Some (schedule q g2)
  else Some g.

(** [start_question_timer] *)
Definition start_question_timer (q : Z) (g : GUI) : option GUI :=
  d ← question_data g !! q;
  if negb (timer_running d) then
    run_question_timer q
      (set_question q (mkQData true (elapsed_seconds d) false) g)
  else Some g.

(** [pause_question_timer] *)
Definition pause_question_timer (q : Z) (g : GUI) : option GUI :=
  d ← question_data g !! q;
  Some (set_question q (mkQData false (elapsed_seconds d) (beep_played d)) g).

(** [stop_question_timer]: stops the question and starts the next one. *)
Definition stop_question_timer (q : Z) (g : GUI) : option GUI :=
  d ← question_data g !! q;
  let g1 := set_question q (mkQData false (elapsed_seconds d) (beep_played d)) g in
  let next_question := q + 1 in
  if (next_question <=? 75) && bool_decide (is_Some (question_data g1 !! next_question))
  then start_question_timer next_question g1
  else Some g1.

(** The event loop runs the oldest pending callback. *)
Definition tick (g : GUI) : option GUI :=
  match after_queue g with
  | [] => None
  | q :: rest =>
      run_question_timer q
        (mkGUI (question_data g) (max_time_per_question g) rest (beeps g))
  end.

(** What the user and the event loop can do to the timers. *)
Inductive event := Start (q : Z) | Pause (q : Z) | Stop (q : Z) | Tick.

Definition step (e : event) (g : GUI) : option GUI :=
  match e with
  | Start q => start_question_timer q g
  | Pause q => pause_question_timer q g
  | Stop q => stop_question_timer q g
  | Tick => tick g
  end.

Fixpoint run (es : list event) (g : GUI) : option GUI :=
  match es with
  | [] => Some g
  | e :: es' => g' ← step e g; run es' g'
  end.

(** [create_question_block] for questions 1..75, as
    [show_75_questions_interface] builds them. *)
Definition fresh_question : QData := mkQData false 0 false.

Definition initial_questions : gmap Z QData :=
  list_to_map (map (fun q => (q, fresh_question)) (seqZ 1 75)).

Definition initial_gui (max_minutes : Z) : GUI :=
  mkGUI initial_questions max_minutes [] [].

(** Whether an event starts the timer of question [q]: its start button,
    or the stop button of the question before it. *)
Definition starts (q : Z) (e : event) : bool :=
  match e with
  | Start q' => q' =? q
  | Stop q' => q' + 1 =? q
  | _ => false
  end.

(** The elapsed counter of a question, as [update_timer_display] reads it. *)
Definition elapsed (q : Z) (g : GUI) : option Z :=
  elapsed_seconds <$> question_data g !! q.

Definition running (q : Z) (g : GUI) : option bool :=
  timer_running <$> question_data g !! q.

(** Number of alerts played for question [q]. *)
Definition alerts (q : Z) (g : GUI) : nat :=
  length (filter (fun x => x = q) (beeps g)).

(** The entry of a running question after one run of the timer callback. *)
Definition ticked (mx : Z) (d : QData) : QData :=
  mkQData true (elapsed_seconds d + 1)
          (beep_played d || time_exceeded (elapsed_seconds d + 1) mx).

Definition alert_of (q mx : Z) (d : QData) : list Z :=
  if time_exceeded (elapsed_seconds d + 1) mx && negb (beep_played d) then [q] else [].

(** What an event that does not start question [q] does to it: the counter
    does not go down, a timer that is not running is left as it is, a
    raised alert flag stays raised, and an alert is played exactly when the
    flag goes up, which needs a counter above the limit. *)
Definition quiet_effect (q : Z) (g g' : GUI) (d d' : QData) : Prop :=
  elapsed_seconds d <= elapsed_seconds d'
  /\ (timer_running d = false -> d' = d)
  /\ (beep_played d = true -> beep_played d' = true)
  /\ alerts q g' = (alerts q g + if negb (beep_played d) && beep_played d' then 1 else 0)%nat
  /\ (beep_played d = false -> beep_played d' = true ->
      60 * max_time_per_question g < elapsed_seconds d').

End MockTestTimerGUI.

(** ** Python values and the string functions the study timer uses

    Text is modelled as strings of ASCII characters (what the logger itself
    writes); code points above 127 are outside the model. *)

Module Py.

Definition LF : ascii := "010"%char.
Definition CR : ascii := "013"%char.
Definition DQUOTE : ascii := "034"%char.

Definition chars (s : string) : list ascii := list_ascii_of_string s.
Definition text (cs : list ascii) : string := string_of_list_ascii cs.

(** [str(n)] for an integer. *)
Definition str_int (z : Z) : string := NilZero.string_of_int (Z.to_int z).

(** The values that occur in a CSV row dictionary or are handed to the CSV
    writer. *)
Inductive value :=
| VNone
| VStr (s : string)
| VInt (z : Z).

(** [str(v)], also what an f-string substitutes for [{v}]. *)
Definition str (v : value) : string :=
  match v with
  | VNone => "None"
  | VStr s => s
  | VInt z => str_int z
  end.

(** Truth value of an object. *)
Definition truthy (v : value) : bool :=
  match v with
  | VNone => false
  | VStr s => negb (String.eqb s EmptyString)
  | VInt z => negb (z =? 0)
  end.

(** [a or b] *)
Definition or_else (a b : value) : value := if truthy a then a else b.

(** Characters removed by [str.strip()]: 9..13, 28..31 and the space. *)
Definition is_space (c : ascii) : bool :=
  let n := nat_of_ascii c in
  ((9 <=? n) && (n <=? 13) || (28 <=? n) && (n <=? 32))%nat.

(** Characters [int()] tolerates around a number: 9..13 and the space. *)
Definition is_int_space (c : ascii) : bool :=
  let n := nat_of_ascii c in
  ((9 <=? n) && (n <=? 13) || (n =? 32))%nat.

Fixpoint drop_while (p : ascii -> bool) (cs : list ascii) : list ascii :=
  match cs with
  | [] => []
  | c :: cs' => if p c then drop_while p cs' else cs
  end.

Definition strip_with (p : ascii -> bool) (cs : list ascii) : list ascii :=
  rev (drop_while p (rev (drop_while p cs))).

(** [s.strip()] *)
Definition strip (s : string) : string := text (strip_with is_space (chars s)).

Definition is_digit (c : ascii) : bool :=
  let n := nat_of_ascii c in ((48 <=? n) && (n <=? 57))%nat.

Definition digit_value (c : ascii) : Z := Z.of_nat (nat_of_ascii c) - 48.

(** Digits of a decimal literal; single underscores may separate digits. *)
Fixpoint parse_digits (acc : Z) (after_digit : bool) (cs : list ascii) : option Z :=
  match cs with
  | [] => if after_digit then Some acc else None
  | c :: cs' =>
      if is_digit c then parse_digits (10 * acc + digit_value c) true cs'
      else if Ascii.eqb c "_"%char then
        if after_digit then parse_digits acc false cs' else None
      else None
  end.

(** [int(s)] for a string; [None] is [ValueError]. *)
Definition int_of_string (s : string) : option Z :=
  match strip_with is_int_space (chars s) with
  | "+"%char :: ds => parse_digits 0 false ds
  | "-"%char :: ds => Z.opp <$> parse_digits 0 false ds
  | ds => parse_digits 0 false ds
  end.

(** [int(v)]; [None] is [ValueError] or [TypeError]. *)
Definition int (v : value) : option Z :=
  match v with
  | VNone => None
  | VStr s => int_of_string s
  | VInt z => Some z
  end.

(** [s.split(sep)] for a one-character separator. *)
Fixpoint split_chars (sep : ascii) (cur : list ascii) (cs : list ascii) : list string :=
  match cs with
  | [] => [text (rev cur)]
  | c :: cs' =>
      if Ascii.eqb c sep then text (rev cur) :: split_chars sep [] cs'
      else split_chars sep (c :: cur) cs'
  end.

Definition split (sep : ascii) (s : string) : list string :=
  split_chars sep [] (chars s).

(** [sep.join(parts)] *)
Fixpoint join (sep : string) (parts : list string) : string :=
  match parts with
  | [] => EmptyString
  | [p] => p
  | p :: ps => p +:+ sep +:+ join sep ps
  end.

(** [s.lower()] on ASCII letters. *)
Definition lower_char (c : ascii) : ascii :=
  let n := nat_of_ascii c in
  if ((65 <=? n) && (n <=? 90))%nat then ascii_of_nat (n + 32) else c.

Definition lower (s : string) : string := text (map lower_char (chars s)).

(** [int(x)] for a float [x]: truncation towards zero. *)
Definition int_of_float (x : Q) : Z := Z.quot (Qnum x) (Z.pos (Qden x)).

(** [a / b] for integers; [None] is [ZeroDivisionError].  A float is
    modelled by the exact rational it approximates; rounding to 53 bits and
    the finite range of floats are not modelled. *)
Definition truediv (a b : Z) : option Q :=
  if b =? 0 then None else Some (inject_Z a / inject_Z b)%Q.

(** Nearest integer, ties to even, of a non-negative rational. *)
Definition round_half_even (x : Q) : Z :=
  let n := Qnum x in
  let d := Z.pos (Qden x) in
  let fl := n / d in
  let r := n mod d in
  if d <? 2 * r then fl + 1
  else if (2 * r =? d) && Z.odd fl then fl + 1
  else fl.

(** [f"{x:.1f}"]: one decimal, the nearest one, ties to the even digit. *)
Definition format_1f (x : Q) : string :=
  let tenths := round_half_even (Qabs x * 10)%Q in
  (if (Qnum x <? 0) then "-" else EmptyString)
  +:+ str_int (tenths / 10) +:+ "." +:+ str_int (tenths mod 10).

(** Truth value of a list. *)
Definition nonempty {A} (l : list A) : bool :=
  match l with [] => false | _ => true end.

(** [sum], [min] and [max] of a list of integers ([min] and [max] are
    applied to non-empty lists only). *)
Definition sum (l : list Z) : Z := fold_right Z.add 0 l.

Definition min_list (l : list Z) : option Z :=
  match l with
  | [] => None
  | x :: xs => Some (fold_left Z.min xs x)
  end.

Definition max_list (l : list Z) : option Z :=
  match l with
  | [] => None
  | x :: xs => Some (fold_left Z.max xs x)
  end.

End Py.

(** ** The [csv] module with its default dialect

    Delimiter [,], quote character 34, doubled quotes, line terminator
    CR LF, minimal quoting, not strict.  The field size limit of the reader
    is not modelled. *)

Module Csv.
Import Py.

Definition COMMA : ascii := ","%char.

(** A field is quoted when it holds the delimiter, the quote character or
    a line break. *)
Definition needs_quote (cs : list ascii) : bool :=
  existsb (fun c => Ascii.eqb c COMMA || Ascii.eqb c DQUOTE
                    || Ascii.eqb c CR || Ascii.eqb c LF) cs.

Definition double_quotes (cs : list ascii) : list ascii :=
  flat_map (fun c => if Ascii.eqb c DQUOTE then [DQUOTE; DQUOTE] else [c]) cs.

Definition write_field (s : string) : list ascii :=
  let cs := chars s in
  if needs_quote cs then DQUOTE :: double_quotes cs ++ [DQUOTE] else cs.

Fixpoint join_fields (fs : list (list ascii)) : list ascii :=
  match fs with
  | [] => []
  | [f] => f
  | f :: fs' => f ++ COMMA :: join_fields fs'
  end.

(** [csv.writer(f).writerow(row)]: the text written to [f]. *)
Definition writerow (row : list value) : string :=
  let fields := map str row in
  match fields with
  | [EmptyString] => text [DQUOTE; DQUOTE; CR; LF]
  | _ => text (join_fields (map write_field fields) ++ [CR; LF])
  end.

(** Lines of a file opened with [newline=""]: a line ends after LF, after
    CR LF, or after a CR that no LF follows; the line break is kept. *)
Fixpoint split_lines (cur : list ascii) (cs : list ascii) : list (list ascii) :=
  match cs with
  | [] => match cur with [] => [] | _ => [rev cur] end
  | c :: cs' =>
      if Ascii.eqb c LF then rev (c :: cur) :: split_lines [] cs'
      else if Ascii.eqb c CR then
        match cs' with
        | c' :: cs'' =>
            if Ascii.eqb c' LF then rev (c' :: c :: cur) :: split_lines [] cs''
            else rev (c :: cur) :: split_lines [] cs'
        | [] => [rev (c :: cur)]
        end
      else split_lines (c :: cur) cs'
  end.

Inductive parser_state :=
| START_RECORD
| START_FIELD
| IN_FIELD
| IN_QUOTED_FIELD
| QUOTE_IN_QUOTED_FIELD
| EAT_CRNL.

(** The reader object between characters: the fields of the record being
    read (latest first), the characters of the field being read (latest
    first) and the state. *)
Record parser := mkParser {
  fields : list string;
  field : list ascii;
  state : parser_state
}.

Definition parse_add_char (c : ascii) (p : parser) : parser :=
  mkParser (fields p) (c :: field p) (state p).

Definition parse_save_field (p : parser) : parser :=
  mkParser (text (rev (field p)) :: fields p) [] (state p).

Definition set_state (st : parser_state) (p : parser) : parser :=
  mkParser (fields p) (field p) st.

Definition is_newline (c : ascii) : bool := Ascii.eqb c LF || Ascii.eqb c CR.

(** [parse_process_char]; [None] as the character is the end of the line,
    [None] as the result is [csv.Error]. *)
Definition parse_process_char (c : option ascii) (p : parser) : option parser :=
  let start_field p :=
    match c with
    | None => Some (set_state START_RECORD (parse_save_field p))
    | Some ch =>
        if is_newline ch then Some (set_state EAT_CRNL (parse_save_field p))
        else if Ascii.eqb ch DQUOTE then Some (set_state IN_QUOTED_FIELD p)
        else if Ascii.eqb ch COMMA then Some (set_state START_FIELD (parse_save_field p))
        else Some (set_state IN_FIELD (parse_add_char ch p))
    end in
  match state p with
  | START_RECORD =>
      match c with
      | None => Some p
      | Some ch => if is_newline ch then Some (set_state EAT_CRNL p) else start_field p
      end
  | START_FIELD => start_field p
  | IN_FIELD =>
      match c with
      | None => Some (set_state START_RECORD (parse_save_field p))
      | Some ch =>
          if is_newline ch then Some (set_state EAT_CRNL (parse_save_field p))
          else if Ascii.eqb ch COMMA then Some (set_state START_FIELD (parse_save_field p))
          else Some (parse_add_char ch p)
      end
  | IN_QUOTED_FIELD =>
      match c with
      | None => Some p
      | Some ch =>
          if Ascii.eqb ch DQUOTE then Some (set_state QUOTE_IN_QUOTED_FIELD p)
          else Some (parse_add_char ch p)
      end
  | QUOTE_IN_QUOTED_FIELD =>
      match c with
      | None => Some (set_state START_RECORD (parse_save_field p))
      | Some ch =>
          if Ascii.eqb ch DQUOTE then Some (set_state IN_QUOTED_FIELD (parse_add_char ch p))
          else if Ascii.eqb ch COMMA then Some (set_state START_FIELD (parse_save_field p))
          else if is_newline ch then Some (set_state EAT_CRNL (parse_save_field p))
          else Some (set_state IN_FIELD (parse_add_char ch p))
      end
  | EAT_CRNL =>
      match c with
      | None => Some (set_state START_RECORD p)
      | Some ch => if is_newline ch then Some p else None
      end
  end.

Fixpoint parse_chars (cs : list ascii) (p : parser) : option parser :=
  match cs with
  | [] => Some p
  | c :: cs' => p' ← parse_process_char (Some c) p; parse_chars cs' p'
  end.

(** One line: its characters, then the end of the line. *)
Definition parse_line (line : list ascii) (p : parser) : option parser :=
  p' ← parse_chars line p; parse_process_char None p'.

Definition parse_reset : parser := mkParser [] [] START_RECORD.

(** The records of the remaining lines, [p] being the reader at the start
    of a line.  At the end of the input an unfinished record is returned
    when a field is under way. *)
Fixpoint read_records (lines : list (list ascii)) (p : parser)
  : option (list (list string)) :=
  match lines with
  | [] =>
      if negb (Nat.eqb (length (field p)) 0)
         || match state p with IN_QUOTED_FIELD => true | _ => false end
      then Some [rev (fields (parse_save_field p))]
      else Some []
  | line :: lines' =>
      p' ← parse_line line p;
      match state p' with
      | START_RECORD =>
          rest ← read_records lines' parse_reset;
          Some (rev (fields p') :: rest)
      | _ => read_records lines' p'
      end
  end.

(** [list(csv.reader(f))] for a file with the given content. *)
Definition reader (content : string) : option (list (list string)) :=
  read_records (split_lines [] (chars content)) parse_reset.

(** A row of [csv.DictReader]: the entries under the field names.  (The
    surplus fields of a long row are stored under the key [None], which no
    caller reads.) *)
Fixpoint zip_row (fieldnames row : list string) (d : gmap string value)
  : gmap string value :=
  match fieldnames, row with
  | k :: ks, v :: vs => zip_row ks vs (<[k := VStr v]> d)
  | ks, [] => fold_left (fun d k => <[k := VNone]> d) ks d
  | [], _ => d
  end.

Definition dict_row (fieldnames row : list string) : gmap string value :=
  zip_row fieldnames row ∅.

(** [list(csv.DictReader(f))]: the first record gives the field names, empty
    records after it are skipped. *)
Definition DictReader (content : string) : option (list (gmap string value)) :=
  records ← reader content;
  match records with
  | [] => Some []
  | fieldnames :: rows =>
      Some (map (dict_row fieldnames)
                (List.filter (fun r => negb (Nat.eqb (length r) 0)) rows))
  end.



End Csv.

(** ** The terminal study timer ([study_timer.py]) *)

Module StudyTimer.
Import Py.

Definition CSV_HEADERS : list string :=
  [ "datetime"; "session_wall_seconds"; "questions_started";
    "questions_attempted"; "questions_correct";
    "per_question_durations_seconds" ]%string.

Definition DEFAULT_DURATION_SECONDS : Z := 4 * 60.

(** *** The log file

    The files are a map from path to content; a path without entry does
    not exist.  Failing file operations (missing directory, no permission)
    are not modelled. *)

(** [ensure_csv] *)
Definition ensure_csv (path : string) (files : gmap string string) : gmap string string :=
  match files !! path with
  | Some _ => files
  | None => <[path := Csv.writerow (map VStr CSV_HEADERS)]> files
  end.

(** A [datetime] and its [isoformat(sep=" ", timespec="seconds")]. *)
Record datetime := mkDatetime {
  year : nat; month : nat; day : nat;
  hour : nat; minute : nat; second : nat
}.

Fixpoint zeros (n : nat) : string :=
  match n with
  | O => EmptyString
  | S n' => String "0" (zeros n')
  end.

Definition pad (width n : nat) : string :=
  let digits := str_int (Z.of_nat n) in
  zeros (width - String.length digits) +:+ digits.

Definition isoformat (t : datetime) : string :=
  pad 4 (year t) +:+ "-" +:+ pad 2 (month t) +:+ "-" +:+ pad 2 (day t) +:+ " "
  +:+ pad 2 (hour t) +:+ ":" +:+ pad 2 (minute t) +:+ ":" +:+ pad 2 (second t).

(** The row [append_session] writes. *)
Definition session_row (now : datetime) (wall_seconds started attempted correct : Z)
    (durations : list Z) : string :=
  let durations_str := join ";" (map str_int durations) in
  Csv.writerow [ VStr (isoformat now); VInt wall_seconds; VInt started;
                 VInt attempted; VInt correct; VStr durations_str ].

(** [append_session]; [now] is what [datetime.now()] returns.  Opening
    with mode [a] creates a missing file and writes at the end. *)
Definition append_session (path : string) (wall_seconds started attempted correct : Z)
    (durations : list Z) (now : datetime) (files : gmap string string)
  : gmap string string :=
  <[path := default EmptyString (files !! path)
            +:+ session_row now wall_seconds started attempted correct durations]> files.

(** Characters of the rows the logger writes: digits, the minus sign, the
    space, the colon and the semicolon. *)
Definition plain_char (c : ascii) : bool :=
  is_digit c || Ascii.eqb c "-" || Ascii.eqb c " " || Ascii.eqb c ":" || Ascii.eqb c ";".

Definition plain (s : string) : Prop := Forall (fun c => plain_char c = true) (chars s).

(** The text of the row [append_session] writes, without its line break. *)
Definition session_text (now : datetime) (wall_seconds started attempted correct : Z)
    (durations : list Z) : string :=
  isoformat now +:+ "," +:+ str_int wall_seconds +:+ "," +:+ str_int started +:+ ","
  +:+ str_int attempted +:+ "," +:+ str_int correct +:+ ","
  +:+ join ";" (map str_int durations).

Definition CRLF : string := text [CR; LF].

(** The header row of a new log. *)
Definition header_row : string :=
  "datetime,session_wall_seconds,questions_started,questions_attempted,questions_correct,per_question_durations_seconds"
  +:+ CRLF.

(** A character that is neither a line break nor the quote character. *)
Definition inline_char (c : ascii) : Prop := c <> CR /\ c <> LF /\ c <> DQUOTE.

(** *** Statistics *)

(** One parsed session: date, attempted, correct, durations. *)
Definition session_entry : Type := value * Z * Z * list Z.

(** A numeric field of a row: [int(row.get(key, "0") or 0)]; [None] is an
    exception. *)
Definition int_field (key : string) (row : gmap string value) : option Z :=
  int (or_else (default (VStr "0") (row !! key)) (VInt 0)).

(** The durations of a row; [None] is an exception. *)
Definition durations_of (row : gmap string value) : option (list Z) :=
  match or_else (default (VStr EmptyString) (row !! "per_question_durations_seconds"%string))
                (VStr EmptyString) with
  | VStr durations_field =>
      mapM int_of_string
        (List.filter (fun x => truthy (VStr (strip x))) (split ";" durations_field))
  | _ => None
  end.

(** The body of the [try] of [compute_and_print_stats]; [None] is an
    exception, which makes the loop skip the row. *)
Definition parse_row (row : gmap string value) : option session_entry :=
  let date := default (VStr EmptyString) (row !! "datetime"%string) in
  attempted ← int_field "questions_attempted" row;
  correct ← int_field "questions_correct" row;
  durations ← durations_of row;
  Some (date, attempted, correct, durations).

(** The variables of [compute_and_print_stats] after its reading loop. *)
Record totals := mkTotals {
  sessions : list session_entry;
  all_durations : list Z;
  total_attempted : Z;
  total_correct : Z
}.

Definition no_totals : totals := mkTotals [] [] 0 0.

Definition add_row (acc : totals) (row : gmap string value) : totals :=
  match parse_row row with
  | None => acc
  | Some (date, attempted, correct, durations) =>
      mkTotals (sessions acc ++ [(date, attempted, correct, durations)])
               (all_durations acc ++ durations)
               (total_attempted acc + attempted)
               (total_correct acc + correct)
  end.

Definition read_totals (rows : list (gmap string value)) : totals :=
  fold_left add_row rows no_totals.

Definition count_late (limit : Z) (durations : list Z) : Z :=
  Z.of_nat (length (List.filter (fun d => limit <? d) durations)).

Definition len {A} (l : list A) : Z := Z.of_nat (length l).

(** [l[-n:]] *)
Definition last_n {A} (n : nat) (l : list A) : list A := drop (length l - n) l.

Definition NL : string := String LF EmptyString.

(** The accuracy line of the summary. *)
Definition accuracy_line (t : totals) : option string :=
  if 0 <? total_attempted t then
    ratio ← truediv (total_correct t) (total_attempted t);
    Some ("Overall accuracy: " +:+ format_1f (ratio * 100)%Q +:+ "%")
  else Some "Overall accuracy: N/A (no attempted questions)"%string.

(** The lines about the question durations. *)
Definition duration_lines (t : totals) : option (list string) :=
  if nonempty (all_durations t) then
    avg_dur ← truediv (sum (all_durations t)) (len (all_durations t));
    fastest ← min_list (all_durations t);
    slowest ← max_list (all_durations t);
    Some [ "Average question duration: " +:+ format_1f avg_dur +:+ "s";
           "Fastest question: " +:+ str_int fastest +:+ "s, Slowest question: "
             +:+ str_int slowest +:+ "s";
           "Questions finished after " +:+ str_int DEFAULT_DURATION_SECONDS +:+ "s: "
             +:+ str_int (count_late DEFAULT_DURATION_SECONDS (all_durations t)) ]
  else Some [ "No per-question durations recorded yet."%string ].

(** The accuracy of one session as the trend shows it. *)
Definition accuracy_str (correct attempted : Z) : option string :=
  if 0 <? attempted then
    ratio ← truediv correct attempted;
    Some (format_1f (ratio * 100)%Q +:+ "%")
  else Some "N/A"%string.

(** One line of the per-session trend. *)
Definition session_line (e : session_entry) : option string :=
  let '(date, attempted, correct, durations) := e in
  acc_str ← accuracy_str correct attempted;
  avg_q_str ←
    (if nonempty durations then
       avg_q ← truediv (sum durations) (len durations);
       Some (format_1f avg_q +:+ "s")
     else Some "-"%string);
  Some (str date +:+ " | attempted=" +:+ str_int attempted +:+ " correct="
        +:+ str_int correct +:+ " acc=" +:+ acc_str +:+ " avg_q=" +:+ avg_q_str).

Definition trend_lines (t : totals) : option (list string) :=
  match sessions t with
  | [] => Some []
  | _ =>
      ls ← mapM session_line (rev (last_n 10 (sessions t)));
      Some ((NL +:+ "Per-session accuracy (most recent first):") :: ls)
  end.

(** What [compute_and_print_stats] prints once the rows are read, one
    string per [print]; [None] is an exception leaving the function. *)
Definition print_stats (t : totals) : option (list string) :=
  acc ← accuracy_line t;
  durs ← duration_lines t;
  trend ← trend_lines t;
  Some ([ NL +:+ "--- Subject summary ---";
          "Sessions recorded: " +:+ str_int (len (sessions t));
          "Total questions attempted: " +:+ str_int (total_attempted t);
          "Total correct: " +:+ str_int (total_correct t);
          acc ]
        ++ durs ++ trend ++ [ "--- end summary ---" +:+ NL ]).


(** [compute_and_print_stats] *)
Definition compute_and_print_stats (path : string) (files : gmap string string)
  : option (list string) :=
  match files !! path with
  | None => Some [ "No CSV found for stats."%string ]
  | Some content =>
      rows ← Csv.DictReader content;
      print_stats (read_totals rows)
  end.

(** *** The question timer and the interactive loop

    [time.monotonic()] is an oracle: its [k]-th call returns [clock k].  The
    code that reads the clock lives in a state monad over the number of
    calls made so far.  Floats are the rationals they stand for. *)

Record Session := mkSession {
  duration_seconds : Z;
  current_start : option Q;
  per_question_durations : list Z;
  started_count : Z
}.

Definition new_session : Session := mkSession DEFAULT_DURATION_SECONDS None [] 0.

Definition is_running (s : Session) : bool :=
  match current_start s with Some _ => true | None => false end.

(** The state of [interactive_loop]; [beeps] counts the calls of [do_beep],
    [announcements] the prints of the overrun message. *)
Record Loop := mkLoop {
  session : Session;
  session_start_wall : option Q;
  alarm_active : bool;
  last_beep_time : Q;
  beeps : nat;
  announcements : nat
}.

Definition initial_loop : Loop := mkLoop new_session None false 0 0 0.

Definition M (A : Type) : Type := nat -> A * nat.
Definition ret {A} (a : A) : M A := fun k => (a, k).
Definition bind {A B} (m : M A) (f : A -> M B) : M B :=
  fun k => let (a, k') := m k in f a k'.

Notation "x <~ m ;; f" := (bind m (fun x => f))
  (at level 100, m at next level, right associativity).

(** [prompt_int] reading from the input queue; the list holds the lines
    that arrive, and [None] means that the function waits for ever. *)
Fixpoint prompt_int (default : option Z) (lines : list string) : option Z :=
  match lines with
  | [] => None
  | s :: rest =>
      match default with
      | Some d =>
          if String.eqb s EmptyString then Some d
          else match int_of_string s with
               | Some val => if val <? 0 then prompt_int default rest else Some val
               | None => prompt_int default rest
               end
      | None =>
          match int_of_string s with
          | Some val => if val <? 0 then prompt_int default rest else Some val
          | None => prompt_int default rest
          end
      end
  end.

Section Clock.

Variable clock : nat -> Q.

Definition monotonic : M Q := fun k => (clock k, S k).

(** [Session.start] *)
Definition start (s : Session) : M Session :=
  t <~ monotonic ;;
  ret (mkSession (duration_seconds s) (Some t) (per_question_durations s)
                 (started_count s + 1)).

(** [Session.end] *)
Definition end_ (s : Session) : M (Z * Session) :=
  match current_start s with
  | None => ret (0, s)
  | Some t0 =>
      now <~ monotonic ;;
      let elapsed := int_of_float (now - t0)%Q in
      ret (elapsed,
           mkSession (duration_seconds s) None
                     (per_question_durations s ++ [elapsed]) (started_count s))
  end.

(** [Session.elapsed_since_start] *)
Definition elapsed_since_start (s : Session) : M Z :=
  match current_start s with
  | None => ret 0
  | Some t0 => now <~ monotonic ;; ret (int_of_float (now - t0)%Q)
  end.

(** An empty line: start the first timer, or end the running timer and
    start the next. *)
Definition press_enter (st : Loop) : M Loop :=
  if negb (is_running (session st)) then
    wall <~ match session_start_wall st with
            | None => t <~ monotonic ;; ret (Some t)
            | Some w => ret (Some w)
            end ;;
    s' <~ start (session st) ;;
    ret (mkLoop s' wall (alarm_active st) (last_beep_time st)
                (beeps st) (announcements st))
  else
    r <~ end_ (session st) ;;
    s' <~ start (snd r) ;;
    ret (mkLoop s' (session_start_wall st) false (last_beep_time st)
                (beeps st) (announcements st)).

(** The display and alarm part of an iteration. *)
Definition show_timer (st : Loop) : M Loop :=
  if is_running (session st) then
    shown <~ elapsed_since_start (session st) ;;
    e <~ elapsed_since_start (session st) ;;
    if duration_seconds (session st) <=? e then
      let st1 :=
        if alarm_active st then st
        else mkLoop (session st) (session_start_wall st) true 0
                    (beeps st) (S (announcements st)) in
      now <~ monotonic ;;
      if Qle_bool 1 (now - last_beep_time st1) then
        ret (mkLoop (session st1) (session_start_wall st1) (alarm_active st1) now
                    (S (beeps st1)) (announcements st1))
      else ret st1
    else ret st
  else ret st.

(** One iteration of the [while True] loop; [line] is what
    [iq.get_nowait()] gives ([None] for [Empty]); the result [None] is
    [break]. *)
Definition loop_body (exit_letter : string) (line : option string) (st : Loop)
  : M (option Loop) :=
  match line with
  | Some l =>
      if String.eqb (lower (strip l)) (lower exit_letter) then ret None
      else
        st1 <~ (if String.eqb l EmptyString then press_enter st else ret st) ;;
        st2 <~ show_timer st1 ;;
        ret (Some st2)
  | None => st2 <~ show_timer st ;; ret (Some st2)
  end.

(** The loop over the successive results of [get_nowait]; Ctrl+C arrives
    when the list is used up. *)
Fixpoint run_loop (exit_letter : string) (inputs : list (option string)) (st : Loop)
  : M Loop :=
  match inputs with
  | [] => ret st
  | line :: inputs' =>
      r <~ loop_body exit_letter line st ;;
      match r with
      | None => ret st
      | Some st' => run_loop exit_letter inputs' st'
      end
  end.

(** What a run of [interactive_loop] leaves behind. *)
Record outcome := mkOutcome {
  files_after : gmap string string;
  stats_printed : option (list string)
}.

(** The end of [interactive_loop], after the loop; [answers] are the lines
    that arrive for [prompt_int].  [None] means that the prompt waits for
    ever. *)
Definition finish (path : string) (st : Loop) (answers : list string)
    (now : datetime) (files : gmap string string) : M (option outcome) :=
  wall_seconds <~ match session_start_wall st with
                  | None => ret 0
                  | Some w => t <~ monotonic ;; ret (int_of_float (t - w)%Q)
                  end ;;
  let attempted := len (per_question_durations (session st)) in
  let started := started_count (session st) in
  if attempted =? 0 then ret (Some (mkOutcome files None))
  else
    match prompt_int None answers with
    | None => ret None
    | Some wrong =>
        let correct := Z.max 0 (attempted - wrong) in
        let files' := append_session path wall_seconds started attempted correct
                        (per_question_durations (session st)) now files in
        ret (Some (mkOutcome files' (compute_and_print_stats path files')))
    end.

(** [interactive_loop] *)
Definition interactive_loop (path exit_letter : string)
    (inputs : list (option string)) (answers : list string)
    (now : datetime) (files : gmap string string) : M (option outcome) :=
  st <~ run_loop exit_letter inputs initial_loop ;;
  finish path st answers now files.

(** The running timer was started at an earlier reading of the clock. *)
Definition started_before (s : Session) (k : nat) : Prop :=
  match current_start s with
  | Some t => exists j, (j < k)%nat /\ t = clock j
  | None => True
  end.

(** The overrun test of one iteration, made at the second reading of the
    clock in [show_timer]. *)
Definition overdue (s : Session) (k : nat) : bool :=
  match current_start s with
  | Some t0 => duration_seconds s <=? int_of_float (clock (S k) - t0)%Q
  | None => false
  end.

End Clock.

End StudyTimer.

(** ** Inputs on which the programs are run below *)

Module Demo.
Import Py Csv StudyTimer MockTestTimerGUI.

(** A clock that advances by one hundred seconds from one reading to the
    next, and one that advances by one second. *)
Definition coarse_clock (k : nat) : Q := inject_Z (100 * Z.of_nat k).
Definition second_clock (k : nat) : Q := inject_Z (Z.of_nat k).

Definition demo_now : datetime := mkDatetime 2024 1 29 14 30 0.
Definition demo_path : string := "sessions_maths.csv".

(** A log with the header and one session of three questions. *)
Definition demo_files : gmap string string :=
  append_session demo_path 200 4 3 2 [30; 60; 90] demo_now (ensure_csv demo_path ∅).

Definition demo_rows : list (gmap string value) :=
  default [] (DictReader (default EmptyString (demo_files !! demo_path))).



(** Three timers are started with the Enter key, the session is left with
    [q], and the user answers the prompt after two invalid lines. *)
Definition demo_inputs : list (option string) :=
  [ Some EmptyString; None; Some EmptyString; None; Some EmptyString; Some "q"%string ].
Definition demo_answers : list string := [ "none"; "-1"; "1" ]%string.

Definition demo_outcome : outcome :=
  default (mkOutcome ∅ None)
    (fst (interactive_loop second_clock demo_path "q" demo_inputs demo_answers
            demo_now (ensure_csv demo_path ∅) 0%nat)).

Definition demo_events : list event := [Start 1; Tick; Pause 1; Tick; Stop 2].

Definition demo_gui : GUI := default (initial_gui 5) (run demo_events (initial_gui 5)).

Definition demo_session : Session := mkSession 240 (Some (second_clock 0)) [] 1.

End Demo.

(** * Properties of the per-question timers of the popup application *)

Module TimerFacts.
Import MockTestTimerGUI.

Lemma run_question_timer_running q g d :
  question_data g !! q = Some d -> timer_running d = true ->
  run_question_timer q g =
    Some (mkGUI (<[q := ticked (max_time_per_question g) d]> (question_data g))
                (max_time_per_question g) (after_queue g ++ [q])
                (beeps g ++ alert_of q (max_time_per_question g) d)).
Proof.
  intros Hq Hr. unfold run_question_timer, alert_of, ticked.
  rewrite Hq. simpl. rewrite Hr. simpl.
  destruct (time_exceeded _ _) eqn:Hex; destruct (beep_played d) eqn:Hb; simpl;
    unfold schedule, beep, set_question; simpl; f_equal; f_equal;
    rewrite ?insert_insert_eq, ?app_nil_r; reflexivity.
Qed.

Lemma run_question_timer_idle q g d :
  question_data g !! q = Some d -> timer_running d = false ->
  run_question_timer q g = Some g.
Proof.
  intros Hq Hr. unfold run_question_timer. rewrite Hq. simpl. now rewrite Hr.
Qed.

Lemma start_question_timer_idle q g d :
  question_data g !! q = Some d -> timer_running d = false ->
  start_question_timer q g =
    Some (mkGUI (<[q := ticked (max_time_per_question g)
                          (mkQData true (elapsed_seconds d) false)]> (question_data g))
                (max_time_per_question g) (after_queue g ++ [q])
                (beeps g ++ alert_of q (max_time_per_question g)
                                     (mkQData true (elapsed_seconds d) false))).
Proof.
  intros Hq Hr. unfold start_question_timer. rewrite Hq. simpl. rewrite Hr. simpl.
  erewrite run_question_timer_running; [| apply lookup_insert_eq | reflexivity].
  simpl. now rewrite insert_insert_eq.
Qed.

Lemma start_question_timer_running q g d :
  question_data g !! q = Some d -> timer_running d = true ->
  start_question_timer q g = Some g.
Proof.
  intros Hq Hr. unfold start_question_timer. rewrite Hq. simpl. now rewrite Hr.
Qed.

Lemma alerts_app q g l :
  length (filter (fun x => x = q) (beeps g ++ l))
  = (alerts q g + length (filter (fun x => x = q) l))%nat.
Proof. unfold alerts. now rewrite filter_app, length_app. Qed.

Lemma alerts_alert_of_ne q q' mx d :
  q <> q' -> length (filter (fun x => x = q) (alert_of q' mx d)) = 0%nat.
Proof.
  intros Hne. unfold alert_of. destruct (_ && _); [| reflexivity].
  rewrite filter_cons_False by congruence. reflexivity.
Qed.

Lemma alerts_alert_of_eq q mx d :
  length (filter (fun x => x = q) (alert_of q mx d))
  = if time_exceeded (elapsed_seconds d + 1) mx && negb (beep_played d)
    then 1%nat else 0%nat.
Proof.
  unfold alert_of. destruct (_ && _); [| reflexivity].
  rewrite filter_cons_True by reflexivity. reflexivity.
Qed.

(** Operations on question [q'] leave every other question alone. *)
Lemma run_question_timer_frame q' g g' q :
  run_question_timer q' g = Some g' -> q <> q' ->
  question_data g' !! q = question_data g !! q /\ alerts q g' = alerts q g
  /\ max_time_per_question g' = max_time_per_question g.
Proof.
  intros H Hne. unfold run_question_timer in H.
  destruct (question_data g !! q') as [d|] eqn:Hq; [| discriminate]. simpl in H.
  destruct (timer_running d) eqn:Hr.
  - rewrite <- Hr in H. unfold run_question_timer in *.
    pose proof (run_question_timer_running q' g d Hq Hr) as E.
    unfold run_question_timer in E. rewrite Hq in E. simpl in E. rewrite Hr in *.
    rewrite E in H. inversion H; subst; clear H. simpl.
    rewrite lookup_insert_ne by congruence. split; [reflexivity|]. split; [|reflexivity].
    unfold alerts at 1. simpl. rewrite alerts_app, alerts_alert_of_ne by assumption. lia.
  - inversion H; subst. auto.
Qed.

Lemma start_question_timer_frame q' g g' q :
  start_question_timer q' g = Some g' -> q <> q' ->
  question_data g' !! q = question_data g !! q /\ alerts q g' = alerts q g
  /\ max_time_per_question g' = max_time_per_question g.
Proof.
  intros H Hne.
  destruct (question_data g !! q') as [d|] eqn:Hq.
  - destruct (timer_running d) eqn:Hr.
    + rewrite (start_question_timer_running _ _ _ Hq Hr) in H. inversion H; subst; auto.
    + rewrite (start_question_timer_idle _ _ _ Hq Hr) in H. inversion H; subst; clear H.
      simpl. rewrite lookup_insert_ne by congruence. split; [reflexivity|]. split; [|reflexivity].
      unfold alerts at 1. simpl. rewrite alerts_app, alerts_alert_of_ne by assumption. lia.
  - unfold start_question_timer in H. rewrite Hq in H. discriminate.
Qed.

Lemma quiet_effect_refl q g d : quiet_effect q g g d d.
Proof.
  unfold quiet_effect. repeat split; auto; try lia.
  destruct (beep_played d); simpl; lia. congruence.
Qed.

Lemma quiet_effect_alerts_eq q g g1 g' d d' :
  alerts q g' = alerts q g1 -> max_time_per_question g1 = max_time_per_question g ->
  quiet_effect q g g1 d d' -> quiet_effect q g g' d d'.
Proof. unfold quiet_effect. intros -> Hm H. intuition. Qed.

Lemma run_question_timer_quiet q' g g' q d :
  run_question_timer q' g = Some g' -> question_data g !! q = Some d ->
  max_time_per_question g' = max_time_per_question g
  /\ exists d', question_data g' !! q = Some d' /\ quiet_effect q g g' d d'.
Proof.
  intros H Hq. destruct (decide (q = q')) as [->|Hne].
  - destruct (timer_running d) eqn:Hr.
    + rewrite (run_question_timer_running _ _ _ Hq Hr) in H. inversion H; subst; clear H.
      simpl. split; [reflexivity|]. eexists. split; [apply lookup_insert_eq|].
      unfold quiet_effect, ticked. simpl. repeat split.
      * lia.
      * congruence.
      * intros ->. reflexivity.
      * unfold alerts at 1. simpl. rewrite alerts_app, alerts_alert_of_eq.
        destruct (beep_played d), (time_exceeded _ _); simpl; lia.
      * intros -> Hex. simpl in Hex. unfold time_exceeded in Hex. lia.
    + rewrite (run_question_timer_idle _ _ _ Hq Hr) in H. inversion H; subst.
      split; [reflexivity|]. exists d. split; [assumption | apply quiet_effect_refl].
  - destruct (run_question_timer_frame _ _ _ q H Hne) as (E1 & E2 & E3).
    split; [assumption|]. exists d. split; [congruence|].
    eapply quiet_effect_alerts_eq with (g1 := g); [assumption | reflexivity |].
    apply quiet_effect_refl.
Qed.

Lemma start_question_timer_quiet q' g g' q d :
  start_question_timer q' g = Some g' -> question_data g !! q = Some d -> q <> q' ->
  max_time_per_question g' = max_time_per_question g
  /\ exists d', question_data g' !! q = Some d' /\ quiet_effect q g g' d d'.
Proof.
  intros H Hq Hne. destruct (start_question_timer_frame _ _ _ q H Hne) as (E1 & E2 & E3).
  split; [assumption|]. exists d. split; [congruence|].
  eapply quiet_effect_alerts_eq with (g1 := g); [assumption | reflexivity |].
  apply quiet_effect_refl.
Qed.

Lemma stopped_quiet q q' g d dq :
  question_data g !! q = Some d -> question_data g !! q' = Some dq ->
  exists d',
    question_data (set_question q' (mkQData false (elapsed_seconds dq) (beep_played dq)) g) !! q
      = Some d'
    /\ quiet_effect q g
         (set_question q' (mkQData false (elapsed_seconds dq) (beep_played dq)) g) d d'.
Proof.
  intros Hq Hq'. simpl. destruct (decide (q = q')) as [->|Hne].
  - rewrite lookup_insert_eq. eexists; split; [reflexivity|].
    assert (dq = d) as -> by congruence.
    unfold quiet_effect, alerts. simpl. repeat split; try lia; try congruence.
    + intros Hr. destruct d; simpl in *; congruence.
    + destruct (beep_played d); simpl; lia.
  - rewrite lookup_insert_ne by congruence. exists d. split; [assumption|].
    eapply quiet_effect_alerts_eq with (g1 := g); [reflexivity | reflexivity |].
    apply quiet_effect_refl.
Qed.

Lemma quiet_effect_trans q g g1 g2 d d1 d2 :
  max_time_per_question g1 = max_time_per_question g ->
  quiet_effect q g g1 d d1 -> quiet_effect q g1 g2 d1 d2 -> quiet_effect q g g2 d d2.
Proof.
  unfold quiet_effect. intros Hm (A1 & A2 & A3 & A4 & A5) (B1 & B2 & B3 & B4 & B5).
  rewrite Hm in *. repeat split.
  - lia.
  - intros Hr. rewrite B2; rewrite (A2 Hr); auto.
  - auto.
  - rewrite B4, A4.
    destruct (beep_played d) eqn:E0; destruct (beep_played d1) eqn:E1;
      destruct (beep_played d2) eqn:E2; simpl; try lia;
      try (specialize (A3 eq_refl); congruence);
      try (specialize (B3 eq_refl); congruence).
  - intros H0 H2. destruct (beep_played d1) eqn:E1.
    + specialize (A5 H0 eq_refl). lia.
    + auto.
Qed.

(** An event that does not start question [q]. *)
Lemma step_quiet e g g' q d :
  step e g = Some g' -> question_data g !! q = Some d -> starts q e = false ->
  max_time_per_question g' = max_time_per_question g
  /\ exists d', question_data g' !! q = Some d' /\ quiet_effect q g g' d d'.
Proof.
  intros H Hq Hs. destruct e as [q'|q'|q'|]; simpl in *.
  - apply start_question_timer_quiet with (q' := q'); auto. lia.
  - unfold pause_question_timer in H.
    destruct (question_data g !! q') as [dq|] eqn:Hq'; [| discriminate].
    simpl in H. inversion H; subst; clear H. split; [reflexivity|].
    apply stopped_quiet; assumption.
  - unfold stop_question_timer in H.
    destruct (question_data g !! q') as [dq|] eqn:Hq'; [| discriminate].
    simpl in H.
    destruct (stopped_quiet q q' g d dq Hq Hq') as (d1 & Hd1 & Q1).
    set (g1 := set_question q' _ g) in *.
    destruct (_ && _).
    + destruct (start_question_timer_quiet _ _ _ q d1 H Hd1) as (Hm & d2 & Hd2 & Q2); [lia|].
      split; [exact Hm|]. exists d2. split; [assumption|].
      eapply quiet_effect_trans; [| exact Q1 | exact Q2]. reflexivity.
    + inversion H; subst. split; [reflexivity|]. eauto.
  - unfold tick in H. destruct (after_queue g) as [|q' rest]; [discriminate|].
    destruct (run_question_timer_quiet _ _ _ q d H Hq) as (Hm & d' & Hd' & Q).
    split; [exact Hm|]. exists d'. split; [assumption|].
    unfold quiet_effect in *. unfold alerts in *. simpl in *. exact Q.
Qed.

Lemma start_question_timer_total q g d :
  question_data g !! q = Some d -> exists g', start_question_timer q g = Some g'.
Proof.
  intros Hq. destruct (timer_running d) eqn:Hr.
  - rewrite (start_question_timer_running _ _ _ Hq Hr). eauto.
  - rewrite (start_question_timer_idle _ _ _ Hq Hr). eauto.
Qed.

Lemma start_question_timer_mono q' g g' q d :
  start_question_timer q' g = Some g' -> question_data g !! q = Some d ->
  max_time_per_question g' = max_time_per_question g
  /\ exists d', question_data g' !! q = Some d'
                /\ elapsed_seconds d <= elapsed_seconds d'.
Proof.
  intros H Hq. destruct (decide (q = q')) as [->|Hne].
  - destruct (timer_running d) eqn:Hr.
    + rewrite (start_question_timer_running _ _ _ Hq Hr) in H. inversion H; subst.
      split; [reflexivity|]. exists d. split; [assumption | lia].
    + rewrite (start_question_timer_idle _ _ _ Hq Hr) in H. inversion H; subst; clear H.
      simpl. split; [reflexivity|]. eexists. split; [apply lookup_insert_eq|].
      simpl. lia.
  - destruct (start_question_timer_quiet _ _ _ q d H Hq Hne) as (Hm & d' & Hd' & Q).
    split; [assumption|]. exists d'. split; [assumption | apply Q].
Qed.

(** Any event: the counter of a question does not go down. *)
Lemma step_mono e g g' q d :
  step e g = Some g' -> question_data g !! q = Some d ->
  max_time_per_question g' = max_time_per_question g
  /\ exists d', question_data g' !! q = Some d'
                /\ elapsed_seconds d <= elapsed_seconds d'.
Proof.
  intros H Hq. destruct (starts q e) eqn:Hs.
  - destruct e as [q'|q'|q'|]; simpl in *; try discriminate.
    + eapply start_question_timer_mono; eassumption.
    + unfold stop_question_timer in H.
      destruct (question_data g !! q') as [dq|] eqn:Hq'; [| discriminate].
      simpl in H.
      destruct (stopped_quiet q q' g d dq Hq Hq') as (d1 & Hd1 & Q1).
      set (g1 := set_question q' _ g) in *.
      destruct (_ && _).
      * destruct (start_question_timer_mono _ _ _ q d1 H Hd1) as (Hm & d2 & Hd2 & Hle).
        split; [exact Hm|]. exists d2. split; [assumption|].
        destruct Q1 as (A & _). lia.
      * inversion H; subst. split; [reflexivity|]. exists d1. split; [assumption | apply Q1].
  - destruct (step_quiet _ _ _ q d H Hq Hs) as (Hm & d' & Hd' & Q).
    split; [assumption|]. exists d'. split; [assumption | apply Q].
Qed.

(** No event creates a question. *)
Lemma step_absent e g g' q :
  step e g = Some g' -> question_data g !! q = None -> question_data g' !! q = None.
Proof.
  assert (R : forall q' g g', run_question_timer q' g = Some g' ->
              question_data g !! q = None -> question_data g' !! q = None).
  { intros q' h h' H Hq. destruct (decide (q = q')) as [->|Hne].
    - unfold run_question_timer in H. rewrite Hq in H. discriminate.
    - destruct (run_question_timer_frame _ _ _ q H Hne) as (E & _). congruence. }
  assert (S : forall q' g g', start_question_timer q' g = Some g' ->
              question_data g !! q = None -> question_data g' !! q = None).
  { intros q' h h' H Hq. destruct (decide (q = q')) as [->|Hne].
    - unfold start_question_timer in H. rewrite Hq in H. discriminate.
    - destruct (start_question_timer_frame _ _ _ q H Hne) as (E & _). congruence. }
  assert (P : forall q' (h : GUI) dq x, question_data h !! q' = Some dq ->
              question_data h !! q = None ->
              question_data (set_question q' x h) !! q = None).
  { intros q' h dq x Hq' Hq. simpl. rewrite lookup_insert_ne; [assumption | congruence]. }
  intros H Hq. destruct e as [q'|q'|q'|]; simpl in *.
  - eauto.
  - unfold pause_question_timer in H.
    destruct (question_data g !! q') as [dq|] eqn:Hq'; [| discriminate].
    simpl in H. inversion H; subst. eapply P; eassumption.
  - unfold stop_question_timer in H.
    destruct (question_data g !! q') as [dq|] eqn:Hq'; [| discriminate].
    simpl in H. destruct (_ && _).
    + eapply S; [exact H|]. eapply P; eassumption.
    + inversion H; subst. eapply P; eassumption.
  - unfold tick in H. destruct (after_queue g) as [|q' rest]; [discriminate|].
    eapply R; [exact H | exact Hq].
Qed.

Lemma run_app es1 es2 g :
  run (es1 ++ es2) g = (run es1 g ≫= run es2).
Proof.
  revert g. induction es1 as [|e es1 IH]; intros g; simpl; [reflexivity|].
  destruct (step e g); simpl; auto.
Qed.

(** Over any sequence of events the counter of a question does not go
    down. *)
Lemma run_mono es : forall g g' q d,
  run es g = Some g' -> question_data g !! q = Some d ->
  max_time_per_question g' = max_time_per_question g
  /\ exists d', question_data g' !! q = Some d'
                /\ elapsed_seconds d <= elapsed_seconds d'.
Proof.
  induction es as [|e es IH]; intros g g' q d H Hq; simpl in H.
  - inversion H; subst. split; [reflexivity|]. exists d. split; [assumption | lia].
  - destruct (step e g) as [g1|] eqn:Hs; [| discriminate]. simpl in H.
    destruct (step_mono _ _ _ q d Hs Hq) as (Hm1 & d1 & Hd1 & Hle1).
    destruct (IH _ _ q d1 H Hd1) as (Hm2 & d2 & Hd2 & Hle2).
    split; [congruence|]. exists d2. split; [assumption | lia].
Qed.

Lemma run_absent es : forall g g' q,
  run es g = Some g' -> question_data g !! q = None -> question_data g' !! q = None.
Proof.
  induction es as [|e es IH]; intros g g' q H Hq; simpl in H.
  - inversion H; subst. assumption.
  - destruct (step e g) as [g1|] eqn:Hs; [| discriminate]. simpl in H.
    eapply IH; [exact H|]. eapply step_absent; eassumption.
Qed.

(** Over a sequence of events none of which starts question [q]. *)
Lemma run_quiet es : forall g g' q d,
  run es g = Some g' -> question_data g !! q = Some d ->
  forallb (fun e => negb (starts q e)) es = true ->
  max_time_per_question g' = max_time_per_question g
  /\ exists d', question_data g' !! q = Some d' /\ quiet_effect q g g' d d'.
Proof.
  induction es as [|e es IH]; intros g g' q d H Hq Hall; simpl in H.
  - inversion H; subst. split; [reflexivity|]. exists d.
    split; [assumption | apply quiet_effect_refl].
  - destruct (step e g) as [g1|] eqn:Hs; [| discriminate]. simpl in H.
    simpl in Hall. apply andb_true_iff in Hall as [He Hall].
    apply negb_true_iff in He.
    destruct (step_quiet _ _ _ q d Hs Hq He) as (Hm1 & d1 & Hd1 & Q1).
    destruct (IH _ _ q d1 H Hd1 Hall) as (Hm2 & d2 & Hd2 & Q2).
    split; [congruence|]. exists d2. split; [assumption|].
    eapply quiet_effect_trans; eassumption.
Qed.

(** A running timer whose callback is the only pending one and whose
    alert flag tells whether the limit is passed, over [n] callbacks. *)
Lemma run_ticks (n : nat) : forall g q d,
  question_data g !! q = Some d -> timer_running d = true -> after_queue g = [q] ->
  beep_played d = time_exceeded (elapsed_seconds d) (max_time_per_question g) ->
  exists g',
    run (repeat Tick n) g = Some g'
    /\ question_data g' !! q
       = Some (mkQData true (elapsed_seconds d + Z.of_nat n)
                 (time_exceeded (elapsed_seconds d + Z.of_nat n) (max_time_per_question g)))
    /\ after_queue g' = [q]
    /\ max_time_per_question g' = max_time_per_question g
    /\ alerts q g'
       = (alerts q g
          + if negb (beep_played d)
               && time_exceeded (elapsed_seconds d + Z.of_nat n) (max_time_per_question g)
            then 1 else 0)%nat.
Proof.
  induction n as [|n IH]; intros g q d Hq Hr Hqueue Hflag.
  - exists g. simpl. rewrite Z.add_0_r. repeat split; auto.
    + rewrite Hq. f_equal. destruct d as [r e b]; simpl in *. congruence.
    + rewrite <- Hflag. destruct (beep_played d); simpl; lia.
  - simpl. unfold tick. rewrite Hqueue.
    erewrite run_question_timer_running; [| exact Hq | exact Hr]. simpl.
    set (g1 := mkGUI _ _ _ _).
    destruct (IH g1 q (ticked (max_time_per_question g) d)) as (g' & Hrun & Hd' & Hq' & Hm & Ha).
    + apply lookup_insert_eq.
    + reflexivity.
    + reflexivity.
    + simpl. rewrite Hflag. unfold time_exceeded.
      destruct (Z.ltb_spec (60 * max_time_per_question g) (elapsed_seconds d));
        destruct (Z.ltb_spec (60 * max_time_per_question g) (elapsed_seconds d + 1));
        simpl; auto; lia.
    + exists g'. split; [exact Hrun|]. simpl in *.
      replace (elapsed_seconds d + Z.of_nat (S n))
        with (elapsed_seconds d + 1 + Z.of_nat n) by lia.
      repeat split; auto.
      rewrite Ha. subst g1. unfold alerts at 1. simpl.
      rewrite alerts_app, alerts_alert_of_eq.
      rewrite Hflag. unfold time_exceeded.
      destruct (Z.ltb_spec (60 * max_time_per_question g) (elapsed_seconds d));
        destruct (Z.ltb_spec (60 * max_time_per_question g) (elapsed_seconds d + 1));
        destruct (Z.ltb_spec (60 * max_time_per_question g) (elapsed_seconds d + 1 + Z.of_nat n));
        simpl; lia.
Qed.

(** A run of a timer: the start button on a question that is not running,
    no callback pending, then [n] callbacks. *)
Lemma run_start_ticks (n : nat) g q d :
  question_data g !! q = Some d -> timer_running d = false -> after_queue g = [] ->
  exists g',
    run (Start q :: repeat Tick n) g = Some g'
    /\ question_data g' !! q
       = Some (mkQData true (elapsed_seconds d + 1 + Z.of_nat n)
                 (time_exceeded (elapsed_seconds d + 1 + Z.of_nat n)
                                (max_time_per_question g)))
    /\ after_queue g' = [q]
    /\ max_time_per_question g' = max_time_per_question g
    /\ alerts q g'
       = (alerts q g
          + if time_exceeded (elapsed_seconds d + 1 + Z.of_nat n) (max_time_per_question g)
            then 1 else 0)%nat.
Proof.
  intros Hq Hr Hqueue. simpl.
  rewrite (start_question_timer_idle _ _ _ Hq Hr). simpl. rewrite Hqueue. simpl.
  set (g1 := mkGUI _ _ _ _).
  destruct (run_ticks n g1 q
              (ticked (max_time_per_question g) (mkQData true (elapsed_seconds d) false)))
    as (g' & Hrun & Hd' & Hq' & Hm & Ha).
  - apply lookup_insert_eq.
  - reflexivity.
  - reflexivity.
  - reflexivity.
  - exists g'. split; [exact Hrun|]. simpl in *. repeat split; auto.
    rewrite Ha. subst g1. unfold alerts at 1. simpl.
    rewrite alerts_app, alerts_alert_of_eq. simpl.
    rewrite andb_true_r. unfold time_exceeded.
    destruct (Z.ltb_spec (60 * max_time_per_question g) (elapsed_seconds d + 1));
      destruct (Z.ltb_spec (60 * max_time_per_question g) (elapsed_seconds d + 1 + Z.of_nat n));
      simpl; lia.
Qed.

Lemma stop_question_timer_stops q g g' :
  stop_question_timer q g = Some g' ->
  exists d', question_data g' !! q = Some d' /\ timer_running d' = false
             /\ elapsed q g' = elapsed q g.
Proof.
  intros H. unfold stop_question_timer in H.
  destruct (question_data g !! q) as [d|] eqn:Hq; [| discriminate]. simpl in H.
  set (g1 := set_question q _ g) in *.
  assert (H1 : question_data g1 !! q
               = Some (mkQData false (elapsed_seconds d) (beep_played d)))
    by apply lookup_insert_eq.
  unfold elapsed. rewrite Hq. simpl.
  destruct (_ && _).
  - destruct (start_question_timer_frame _ _ _ q H) as (E & _); [lia|].
    rewrite E, H1. eexists. repeat split.
  - inversion H; subst. rewrite H1. eexists. repeat split.
Qed.

Lemma pause_question_timer_stops q g g' :
  pause_question_timer q g = Some g' ->
  exists d', question_data g' !! q = Some d' /\ timer_running d' = false
             /\ elapsed q g' = elapsed q g.
Proof.
  intros H. unfold pause_question_timer in H.
  destruct (question_data g !! q) as [d|] eqn:Hq; [| discriminate]. simpl in H.
  inversion H; subst; clear H. unfold elapsed. simpl. rewrite lookup_insert_eq, Hq.
  eexists. repeat split.
Qed.

Lemma initial_questions_fresh q d :
  initial_questions !! q = Some d -> d = fresh_question.
Proof.
  intros H. unfold initial_questions in H.
  apply elem_of_list_to_map_2, list_elem_of_In, in_map_iff in H as (x & E & _).
  congruence.
Qed.

(** No counter is negative in a state reached from the initial one. *)
Lemma run_nonneg es mx g q d :
  run es (initial_gui mx) = Some g -> question_data g !! q = Some d ->
  0 <= elapsed_seconds d.
Proof.
  intros H Hq. destruct (question_data (initial_gui mx) !! q) as [d0|] eqn:E.
  - destruct (run_mono es _ _ q d0 H E) as (_ & d' & Hd' & Hle).
    simpl in E. apply initial_questions_fresh in E. subst d0. simpl in Hle.
    congruence.
  - pose proof (run_absent es _ _ q H E). congruence.
Qed.

(** C1. A question that is not running, with no callback pending, is
    started, its callback runs [n] times, and it is stopped: the elapsed
    counter has gone up by [n + 1], not by [n], because the start button
    runs the callback once itself. *)
Theorem start_ticks_stop_elapsed (n : nat) (g : GUI) (q : Z) (d : QData) :
  question_data g !! q = Some d -> timer_running d = false -> after_queue g = [] ->
  exists g',
    run (Start q :: repeat Tick n ++ [Stop q]) g = Some g'
    /\ elapsed q g' = Some (elapsed_seconds d + Z.of_nat n + 1)
    /\ running q g' = Some false.
Proof.
  intros Hq Hr Hqueue.
  destruct (run_start_ticks n g q d Hq Hr Hqueue) as (g1 & Hrun & Hd1 & Hq1 & Hm & Ha).
  change (Start q :: repeat Tick n ++ [Stop q])
    with ((Start q :: repeat Tick n) ++ [Stop q]).
  rewrite run_app, Hrun. simpl.
  assert (exists g', stop_question_timer q g1 = Some g') as (g' & Hstop).
  { unfold stop_question_timer. rewrite Hd1. simpl.
    destruct (_ && _) eqn:C; [| eauto].
    apply andb_true_iff in C as [_ C]. apply bool_decide_eq_true in C as (dn & Hn).
    eapply start_question_timer_total. exact Hn. }
  rewrite Hstop. simpl. exists g'. split; [reflexivity|].
  destruct (stop_question_timer_stops _ _ _ Hstop) as (d' & Hd' & Hr' & He).
  split.
  - rewrite He. unfold elapsed. rewrite Hd1. simpl. f_equal. lia.
  - unfold running. rewrite Hd'. simpl. now rewrite Hr'.
Qed.

End TimerFacts.

(** * Properties of the terminal study timer *)

Module SessionFacts.
Import Py StudyTimer.

Lemma int_of_float_nonneg (x : Q) : (0 <= x)%Q -> 0 <= int_of_float x.
Proof.
  intros H. unfold int_of_float. apply Z.quot_pos; [| lia].
  unfold Qle in H. simpl in H. lia.
Qed.

Lemma int_of_float_floor (x : Q) : (0 <= x)%Q -> int_of_float x = Qfloor x.
Proof.
  intros H. unfold int_of_float, Qfloor. destruct x as [n d]. simpl.
  apply Z.quot_div_nonneg; [| lia]. unfold Qle in H. simpl in H. lia.
Qed.

Lemma int_of_float_mono (x y : Q) :
  (0 <= x)%Q -> (x <= y)%Q -> int_of_float x <= int_of_float y.
Proof.
  intros Hx Hxy. rewrite !int_of_float_floor.
  - now apply Qfloor_resp_le.
  - eapply Qle_trans; eassumption.
  - assumption.
Qed.

Lemma bind_eq {A B} (m : M A) (f : A -> M B) (k : nat) :
  bind m f k = f (fst (m k)) (snd (m k)).
Proof. unfold bind. destruct (m k). reflexivity. Qed.

Section Clock.

Variable clock : nat -> Q.
Hypothesis clock_monotonic : forall i j, (i <= j)%nat -> (clock i <= clock j)%Q.

Lemma since_nonneg j k : (j <= k)%nat -> (0 <= clock k - clock j)%Q.
Proof.
  intros H. apply clock_monotonic in H.
  unfold Qminus. apply Qle_minus_iff in H. exact H.
Qed.

Lemma since_mono j k k' :
  (k <= k')%nat -> (clock k - clock j <= clock k' - clock j)%Q.
Proof.
  intros H. apply clock_monotonic in H.
  unfold Qminus. apply Qplus_le_compat; [assumption | apply Qle_refl].
Qed.

(** The elapsed time of a running timer is never negative and never goes
    down from one reading of the clock to a later one. *)
Lemma elapsed_since_start_mono s j k k' :
  current_start s = Some (clock j) -> (j <= k)%nat -> (k <= k')%nat ->
  0 <= fst (elapsed_since_start clock s k)
  /\ fst (elapsed_since_start clock s k) <= fst (elapsed_since_start clock s k').
Proof.
  intros Hs Hjk Hkk. unfold elapsed_since_start. rewrite Hs. simpl. split.
  - apply int_of_float_nonneg, since_nonneg. assumption.
  - apply int_of_float_mono; [apply since_nonneg; assumption | apply since_mono; assumption].
Qed.

Lemma started_before_later s k k' :
  (k <= k')%nat -> started_before clock s k -> started_before clock s k'.
Proof.
  unfold started_before. destruct (current_start s); [| auto].
  intros Hle (j & Hj & ->). exists j. split; [lia | reflexivity].
Qed.

(** An empty line.  The timer that ends is recorded with a duration that
    is not negative, after the durations recorded before; the alarm is
    switched off. *)
Lemma press_enter_spec st k :
  started_before clock (session st) k ->
  let r := press_enter clock st k in
  (k < snd r)%nat
  /\ started_before clock (session (fst r)) (snd r)
  /\ is_running (session (fst r)) = true
  /\ (exists new,
        per_question_durations (session (fst r))
        = per_question_durations (session st) ++ new
        /\ Forall (Z.le 0) new)
  /\ (is_running (session st) = true -> alarm_active (fst r) = false)
  /\ announcements (fst r) = announcements st
  /\ beeps (fst r) = beeps st.
Proof.
  intros Hsb. unfold press_enter, started_before, is_running in *.
  destruct (current_start (session st)) as [t0|] eqn:Hc; simpl.
  - destruct Hsb as (j & Hj & ->).
    unfold bind, end_, start, monotonic, ret. rewrite Hc. simpl.
    repeat split; try lia.
    + exists (S k). split; [lia | reflexivity].
    + eexists. split; [reflexivity|]. constructor; [| constructor].
      apply int_of_float_nonneg, since_nonneg. lia.
  - destruct (session_start_wall st); unfold bind, start, monotonic, ret; simpl;
      repeat split; try lia; try discriminate.
    + exists k. split; [lia | reflexivity].
    + exists []. rewrite app_nil_r. split; [reflexivity | constructor].
    + exists (S k). split; [lia | reflexivity].
    + exists []. rewrite app_nil_r. split; [reflexivity | constructor].
Qed.

(** The display part of an iteration leaves the timer alone; the alarm
    flag goes up when the timer is found overdue clock and is never lowered; the
    overrun message is printed exactly when the flag goes up. *)
Lemma show_timer_spec st k :
  let r := show_timer clock st k in
  (k <= snd r)%nat
  /\ session (fst r) = session st
  /\ alarm_active (fst r) = alarm_active st || overdue clock (session st) k
  /\ announcements (fst r)
     = (announcements st + if negb (alarm_active st) && overdue clock (session st) k
                           then 1 else 0)%nat
  /\ (beeps st <= beeps (fst r) <= beeps st + 1)%nat
  /\ (overdue clock (session st) k = false -> beeps (fst r) = beeps st).
Proof.
  unfold show_timer, overdue, is_running, elapsed_since_start.
  destruct (current_start (session st)) as [t0|] eqn:Hc; simpl.
  - unfold bind, monotonic, ret. simpl.
    destruct (duration_seconds (session st) <=? _) eqn:Hd; simpl.
    + destruct (alarm_active st) eqn:Ha; simpl;
        match goal with |- context [Qle_bool ?a ?b] => destruct (Qle_bool a b) end;
        simpl; rewrite ?Ha; repeat split; try lia; try discriminate.
    + rewrite orb_false_r, andb_false_r. repeat split; lia.
  - rewrite orb_false_r, andb_false_r. repeat split; lia.
Qed.

(** One iteration: the recorded durations are kept, and what is added is
    not negative. *)
Lemma loop_body_spec x line st k :
  started_before clock (session st) k ->
  let r := loop_body clock x line st k in
  (k <= snd r)%nat
  /\ match fst r with
     | None => True
     | Some st' =>
         started_before clock (session st') (snd r)
         /\ exists new,
              per_question_durations (session st')
              = per_question_durations (session st) ++ new
              /\ Forall (Z.le 0) new
     end.
Proof.
  intros Hsb. unfold loop_body.
  assert (Hshow : forall st1 k1, started_before clock (session st1) k1 ->
            (exists new, per_question_durations (session st1)
                         = per_question_durations (session st) ++ new
                         /\ Forall (Z.le 0) new) ->
            (k <= k1)%nat ->
            let r := (st2 <~ show_timer clock st1 ;; ret (Some st2)) k1 in
            (k <= snd r)%nat
            /\ match fst r with
               | None => True
               | Some st' =>
                   started_before clock (session st') (snd r)
                   /\ exists new,
                        per_question_durations (session st')
                        = per_question_durations (session st) ++ new
                        /\ Forall (Z.le 0) new
               end).
  { intros st1 k1 Hsb1 Hnew Hle. unfold bind, ret.
    pose proof (show_timer_spec st1 k1) as (A & B & _).
    destruct (show_timer clock st1 k1) as [st2 k2]. simpl in *.
    split; [lia|]. rewrite B. split; [| assumption].
    eapply started_before_later; eassumption. }
  assert (Hsame : exists new, per_question_durations (session st)
                    = per_question_durations (session st) ++ new /\ Forall (Z.le 0) new).
  { exists []. rewrite app_nil_r. split; [reflexivity | constructor]. }
  destruct line as [l|].
  - destruct (String.eqb (lower (strip l)) (lower x)).
    + unfold ret. simpl. split; [lia | exact I].
    + destruct (String.eqb l EmptyString).
      * pose proof (press_enter_spec st k Hsb) as (A & B & _ & C & _).
        rewrite bind_eq.
        destruct (press_enter clock st k) as [st1 k1]. simpl in *.
        apply Hshow; [assumption | assumption | lia].
      * rewrite bind_eq. unfold ret at 1 2. simpl.
        apply Hshow; [assumption | assumption | lia].
  - apply Hshow; [assumption | assumption | lia].
Qed.


(** The whole loop keeps the recorded durations and adds durations that
    are not negative. *)
Lemma run_loop_durations x inputs : forall st k,
  started_before clock (session st) k ->
  exists new,
    per_question_durations (session (fst (run_loop clock x inputs st k)))
    = per_question_durations (session st) ++ new
    /\ Forall (Z.le 0) new.
Proof.
  induction inputs as [|line inputs IH]; intros st k Hsb; simpl.
  - exists []. rewrite app_nil_r. split; [reflexivity | constructor].
  - pose proof (loop_body_spec x line st k Hsb) as (A & B).
    unfold bind. destruct (loop_body clock x line st k) as [[st1|] k1]; simpl in *.
    + destruct B as (Hsb1 & new1 & E1 & F1).
      destruct (IH st1 k1 Hsb1) as (new2 & E2 & F2).
      exists (new1 ++ new2). rewrite E2, E1, app_assoc. split; [reflexivity|].
      apply Forall_app; auto.
    + exists []. rewrite app_nil_r. split; [reflexivity | constructor].
Qed.


End Clock.


(** [prompt_int] returns as soon as a line holds a number that is not
    negative. *)
Lemma prompt_int_answers bad s rest val :
  Forall (fun l => match int_of_string l with Some v => v < 0 | None => True end) bad ->
  int_of_string s = Some val -> 0 <= val ->
  prompt_int None (bad ++ s :: rest) = Some val.
Proof.
  intros Hbad Hs Hval. induction Hbad as [|l bad Hl Hbad IH]; simpl.
  - rewrite Hs. destruct (Z.ltb_spec val 0); [lia | reflexivity].
  - destruct (int_of_string l) as [v|]; [| exact IH].
    destruct (Z.ltb_spec v 0); [exact IH | lia].
Qed.


End SessionFacts.

(** * Properties of the session log *)

Module LogFacts.
Import Py Csv StudyTimer.

Lemma chars_app a b : chars (a +:+ b) = chars a ++ chars b.
Proof. unfold chars. induction a as [|c a IH]; simpl; [reflexivity | now rewrite IH]. Qed.

Lemma chars_text cs : chars (text cs) = cs.
Proof. apply list_ascii_of_string_of_list_ascii. Qed.

Lemma text_chars s : text (chars s) = s.
Proof. apply string_of_list_ascii_of_string. Qed.

Lemma text_app a b : text (a ++ b) = text a +:+ text b.
Proof. unfold text. induction a as [|c a IH]; simpl; [reflexivity | now rewrite IH]. Qed.

Lemma plain_app a b : plain a -> plain b -> plain (a +:+ b).
Proof. unfold plain. rewrite chars_app. apply Forall_app_2. Qed.

Lemma plain_uint (d : Decimal.uint) : plain (NilEmpty.string_of_uint d).
Proof.
  unfold plain, chars. induction d; simpl; constructor; auto.
Qed.

Lemma plain_str_int z : plain (str_int z).
Proof.
  unfold str_int, NilZero.string_of_int, NilZero.string_of_uint.
  destruct (Z.to_int z) as [d|d]; destruct d;
    try apply plain_uint;
    try (unfold plain, chars; simpl; constructor; [reflexivity |]; try constructor;
         try apply plain_uint; auto).
Qed.

Lemma plain_zeros n : plain (zeros n).
Proof. unfold plain, chars. induction n; simpl; constructor; auto. Qed.

Lemma plain_pad w n : plain (pad w n).
Proof. unfold pad. apply plain_app; [apply plain_zeros | apply plain_str_int]. Qed.

Lemma plain_literal s :
  forallb plain_char (chars s) = true -> plain s.
Proof. unfold plain. intros H. apply Forall_forall. intros c Hc.
  rewrite forallb_forall in H. apply H. now apply list_elem_of_In. Qed.

Lemma plain_isoformat t : plain (isoformat t).
Proof.
  unfold isoformat.
  repeat (apply plain_app;
          [first [apply plain_pad | apply plain_literal; reflexivity] |]).
  apply plain_pad.
Qed.

Lemma plain_join_semicolon l :
  Forall plain l -> plain (join ";" l).
Proof.
  induction 1 as [|x l Hx Hl IH]; simpl.
  - constructor.
  - destruct l as [|y l]; [assumption|].
    apply plain_app; [assumption|]. apply plain_app; [| exact IH].
    apply plain_literal. reflexivity.
Qed.

Lemma plain_durations durations : plain (join ";" (map str_int durations)).
Proof.
  apply plain_join_semicolon. apply Forall_forall. intros x Hx.
  apply list_elem_of_In, in_map_iff in Hx as (z & <- & _). apply plain_str_int.
Qed.

(** A plain character is none of the delimiter, the quote character and
    the line breaks. *)
Lemma plain_char_ordinary c :
  plain_char c = true ->
  Ascii.eqb c COMMA = false /\ Ascii.eqb c DQUOTE = false
  /\ Ascii.eqb c CR = false /\ Ascii.eqb c LF = false.
Proof.
  destruct c as [[] [] [] [] [] [] [] []]; vm_compute; intros H;
    repeat split; congruence.
Qed.

Lemma plain_not_quoted s : plain s -> write_field s = chars s.
Proof.
  intros H. unfold write_field.
  assert (E : needs_quote (chars s) = false).
  { unfold needs_quote. apply not_true_is_false. intros Hex.
    apply existsb_exists in Hex as (c & Hc & Hq).
    unfold plain in H. rewrite Forall_forall in H.
    apply list_elem_of_In, H, plain_char_ordinary in Hc as (A & B & C & D).
    rewrite A, B, C, D in Hq. discriminate. }
  now rewrite E.
Qed.

Lemma writerow_plain row f g fs :
  map str row = f :: g :: fs -> Forall plain (f :: g :: fs) ->
  writerow row = text (join_fields (map chars (f :: g :: fs))) +:+ CRLF.
Proof.
  intros E H. unfold writerow. rewrite E.
  assert (M : map write_field (f :: g :: fs) = map chars (f :: g :: fs)).
  { apply map_ext_in. intros x Hx. apply plain_not_quoted.
    rewrite Forall_forall in H. apply H. now apply list_elem_of_In. }
  unfold CRLF. destruct f; rewrite M, text_app; reflexivity.
Qed.

Lemma text_chars_app a rest : text (chars a ++ rest) = a +:+ text rest.
Proof. now rewrite text_app, text_chars. Qed.

Lemma text_field_comma a rest :
  text (chars a ++ COMMA :: rest) = a +:+ "," +:+ text rest.
Proof. rewrite text_chars_app. reflexivity. Qed.

Lemma session_row_text now wall started attempted correct durations :
  session_row now wall started attempted correct durations
  = session_text now wall started attempted correct durations +:+ CRLF.
Proof.
  unfold session_row.
  erewrite writerow_plain; [| reflexivity |].
  - f_equal. unfold session_text. cbn [map join_fields].
    rewrite !text_field_comma. now rewrite text_chars.
  - repeat constructor;
      first [apply plain_isoformat | apply plain_str_int | apply plain_durations].
Qed.

Lemma inline_session_text now wall started attempted correct durations :
  Forall inline_char (chars (session_text now wall started attempted correct durations)).
Proof.
  assert (P : forall s, plain s -> Forall inline_char (chars s)).
  { intros s H. eapply Forall_impl; [exact H|]. intros c Hc.
    apply plain_char_ordinary in Hc as (_ & B & C & D).
    unfold inline_char. repeat split; intros ->; discriminate. }
  assert (C : Forall inline_char (chars ",")).
  { repeat constructor; discriminate. }
  unfold session_text. rewrite !chars_app.
  repeat (apply Forall_app_2; [first [exact C | apply P] |]);
    try apply P;
    first [apply plain_isoformat | apply plain_str_int | apply plain_durations].
Qed.

(** C4. [ensure_csv] creates a missing log with exactly the header row,
    leaves an existing log as it is (so that running it twice is running it
    once), and touches no other file. *)
Theorem ensure_csv_idempotent (path : string) (files : gmap string string) :
  ensure_csv path files !! path = Some (default header_row (files !! path))
  /\ ensure_csv path (delete path files) !! path = Some header_row
  /\ (forall content,
        ensure_csv path (<[path := content]> files) = <[path := content]> files)
  /\ ensure_csv path (ensure_csv path files) = ensure_csv path files
  /\ delete path (ensure_csv path files) = delete path files.
Proof.
  assert (H : Csv.writerow (map VStr CSV_HEADERS) = header_row) by reflexivity.
  unfold ensure_csv. rewrite H. repeat split.
  - destruct (files !! path) eqn:E; simpl; [assumption | apply lookup_insert_eq].
  - rewrite lookup_delete_eq. apply lookup_insert_eq.
  - intros content. now rewrite lookup_insert_eq.
  - destruct (files !! path) eqn:E; [now rewrite E | now rewrite lookup_insert_eq].
  - destruct (files !! path) eqn:E; [reflexivity | apply delete_insert_eq].
Qed.

(** C3. [append_session] puts one row after the previous content of the
    log: the new content is the old content, byte for byte, followed by one
    line that ends in CR LF and holds no other line break and no quote; a
    second append keeps the first row as it is; no other file changes. *)
Theorem append_session_appends (path : string) (files : gmap string string)
    (now : datetime) (wall started attempted correct : Z) (durations : list Z)
    (now2 : datetime) (wall2 started2 attempted2 correct2 : Z) (durations2 : list Z) :
  let old := default EmptyString (files !! path) in
  let row := session_text now wall started attempted correct durations +:+ CRLF in
  let row2 := session_text now2 wall2 started2 attempted2 correct2 durations2 +:+ CRLF in
  let files1 := append_session path wall started attempted correct durations now files in
  let files2 := append_session path wall2 started2 attempted2 correct2 durations2 now2 files1 in
  files1 !! path = Some (old +:+ row)
  /\ files2 !! path = Some ((old +:+ row) +:+ row2)
  /\ Forall inline_char
       (chars (session_text now wall started attempted correct durations))
  /\ delete path files1 = delete path files.
Proof.
  cbv zeta. unfold append_session. rewrite !session_row_text, !lookup_insert_eq.
  repeat split.
  - apply inline_session_text.
  - apply delete_insert_eq.
Qed.

End LogFacts.

(** * The reader never fails on the lines of a file *)

Module ReaderFacts.
Import Py Csv.









End ReaderFacts.

(** * Properties of the statistics *)

Module StatsFacts.
Import Py Csv StudyTimer.


















End StatsFacts.

(** * The timers of both programs *)

Module TimerClaims.
Import Py StudyTimer MockTestTimerGUI TimerFacts SessionFacts.


(** C9.  In the popup application no event makes the counter of a question
    go down; while a question is not running it is left as it is by every
    event that does not start it, and the pause and the stop button leave
    it not running with its counter unchanged; no counter is negative in a
    state reached from the initial one.  In the study timer, with a clock
    that does not go back, the elapsed time of the running timer is not
    negative and does not go down from one reading to the next, and the
    loop keeps every recorded duration and records no negative one. *)
Theorem elapsed_monotone_and_frozen (es : list event) (g g' : GUI) (q : Z) (d : QData)
    (clock : nat -> Q) (s : Session) (j k k' : nat) :
  run es g = Some g' -> question_data g !! q = Some d ->
  (forall i i', (i <= i')%nat -> (clock i <= clock i')%Q) ->
  current_start s = Some (clock j) -> (j <= k)%nat -> (k <= k')%nat ->
  (exists d',
     question_data g' !! q = Some d'
     /\ elapsed_seconds d <= elapsed_seconds d'
     /\ (timer_running d = false ->
         forallb (fun e => negb (starts q e)) es = true -> d' = d))
  /\ (forall g1, step (Pause q) g = Some g1 \/ step (Stop q) g = Some g1 ->
        running q g1 = Some false /\ elapsed q g1 = elapsed q g)
  /\ (forall mx es0 g0 q0 d0,
        run es0 (initial_gui mx) = Some g0 -> question_data g0 !! q0 = Some d0 ->
        0 <= elapsed_seconds d0)
  /\ (0 <= fst (elapsed_since_start clock s k)
      /\ fst (elapsed_since_start clock s k) <= fst (elapsed_since_start clock s k'))
  /\ (forall exit_letter inputs st k0,
        started_before clock (session st) k0 ->
        exists new,
          per_question_durations
            (session (fst (run_loop clock exit_letter inputs st k0)))
          = per_question_durations (session st) ++ new
          /\ Forall (Z.le 0) new).
Proof.
  intros Hrun Hq Hclock Hs Hjk Hkk. repeat split.
  - destruct (run_mono es _ _ q d Hrun Hq) as (_ & d' & Hd' & Hle).
    exists d'. split; [assumption|]. split; [assumption|].
    intros Hr Hes.
    destruct (run_quiet es _ _ q d Hrun Hq Hes) as (_ & d2 & Hd2 & Q).
    destruct Q as (_ & Q2 & _). rewrite Hd' in Hd2. inversion Hd2; subst. auto.
  - destruct H as [H|H]; simpl in H.
    + destruct (pause_question_timer_stops _ _ _ H) as (d1 & Hd1 & Hr1 & _).
      unfold running. rewrite Hd1. simpl. now rewrite Hr1.
    + destruct (stop_question_timer_stops _ _ _ H) as (d1 & Hd1 & Hr1 & _).
      unfold running. rewrite Hd1. simpl. now rewrite Hr1.
  - destruct H as [H|H]; simpl in H.
    + now destruct (pause_question_timer_stops _ _ _ H) as (d1 & _ & _ & E).
    + now destruct (stop_question_timer_stops _ _ _ H) as (d1 & _ & _ & E).
  - intros mx es0 g0 q0 d0. apply run_nonneg.
  - apply (elapsed_since_start_mono clock Hclock s j k k' Hs Hjk Hkk).
  - apply (elapsed_since_start_mono clock Hclock s j k k' Hs Hjk Hkk).
  - intros x inputs st k0. apply (run_loop_durations clock Hclock).
Qed.

End TimerClaims.

(** * The theorems at concrete inputs *)

Module Examples.
Import Py Csv StudyTimer MockTestTimerGUI Demo.

Lemma coarse_clock_monotonic i i' : (i <= i')%nat -> (coarse_clock i <= coarse_clock i')%Q.
Proof. intros H. unfold coarse_clock, Qle. simpl. lia. Qed.

(** The failing input of C1: a fresh question started and stopped at once
    shows one second. *)
Example fresh_timer_zero_ticks :
  (run [Start 1; Stop 1] (initial_gui 5) ≫= elapsed 1) = Some 1.
Proof. vm_compute. reflexivity. Qed.

Lemma start_ticks_stop_elapsed_witness :
  (question_data (initial_gui 5) !! 1 = Some fresh_question
   /\ timer_running fresh_question = false
   /\ after_queue (initial_gui 5) = [])
  /\ exists g',
       run (Start 1 :: repeat Tick 0 ++ [Stop 1]) (initial_gui 5) = Some g'
       /\ elapsed 1 g' = Some (elapsed_seconds fresh_question + Z.of_nat 0 + 1)
       /\ running 1 g' = Some false.
Proof.
  split; [repeat split |].
  apply (TimerFacts.start_ticks_stop_elapsed 0 (initial_gui 5) 1 fresh_question);
    reflexivity.
Defined.






Lemma second_clock_monotonic i i' : (i <= i')%nat -> (second_clock i <= second_clock i')%Q.
Proof. intros H. unfold second_clock, Qle. simpl. lia. Defined.

Lemma elapsed_monotone_and_frozen_witness :
  (run demo_events (initial_gui 5) = Some demo_gui
   /\ question_data (initial_gui 5) !! 1 = Some fresh_question
   /\ (forall i i', (i <= i')%nat -> (second_clock i <= second_clock i')%Q)
   /\ current_start demo_session = Some (second_clock 0)
   /\ (0 <= 1)%nat /\ (1 <= 5)%nat)
  /\ (exists d', question_data demo_gui !! 1 = Some d'
                 /\ elapsed_seconds fresh_question <= elapsed_seconds d')
  /\ 0 <= fst (elapsed_since_start second_clock demo_session 1%nat)
  /\ fst (elapsed_since_start second_clock demo_session 1%nat)
     <= fst (elapsed_since_start second_clock demo_session 5%nat).
Proof.
  assert (Hrun : run demo_events (initial_gui 5) = Some demo_gui)
    by (vm_compute; reflexivity).
  split.
  - split; [exact Hrun|]. split; [reflexivity|].
    split; [exact second_clock_monotonic|]. split; [reflexivity|]. split; lia.
  - destruct (TimerClaims.elapsed_monotone_and_frozen demo_events (initial_gui 5)
                demo_gui 1 fresh_question second_clock demo_session 0%nat 1%nat 5%nat
                Hrun eq_refl second_clock_monotonic eq_refl
                ltac:(lia) ltac:(lia))
      as ((d' & Hd' & Hle & _) & _ & _ & (A & B) & _).
    split; [exists d'; split; assumption |]. split; assumption.
Defined.


(** The log of the demonstration run: the header, then one row with three
    questions started, two ended and one of them right. *)
Example demo_log :
  files_after demo_outcome !! demo_path
  = Some (header_row
          +:+ "2024-01-29 14:30:00,16,3,2,1,5;5" +:+ CRLF).
Proof. vm_compute. reflexivity. Qed.

(** Reading back the demonstration log of three questions gives one row
    with the values that were written. *)
Example demo_rows_read :
  map parse_row demo_rows
  = [ Some (VStr "2024-01-29 14:30:00", 3, 2, [30; 60; 90]) ].
Proof. vm_compute. reflexivity. Qed.

End Examples.
